(** * MultiMCP: the multi-server tool router of [mcp_servers/multi_mcp.py]

    A shallow embedding of the class [MultiMCP] and the properties of its
    registry, its routing and its positional-argument adapter.

    Conventions of the embedding:
    - a Python [dict] is an association list in insertion order; assigning
      to a key that is present replaces the value in place, assigning to a
      new key appends ([Dict.set]);
    - values that come from JSON (the configuration, tool schemas, tool
      arguments) are terms of [json];
    - a call that may raise returns an [outcome]; the exceptions the router
      raises itself are separate constructors of [exn], an exception that
      comes out of the MCP client library is [LibraryError];
    - an awaited remote operation is a [response]: it replies after some
      number of time units or never does, and [wait_for] puts it under a
      deadline;
    - console output ([print]) is not modelled. *)

From Stdlib Require Import String Ascii List Bool Arith NArith ZArith Lia.
Import ListNotations.
Set Warnings "-register-all".
Local Open Scope list_scope.
Local Open Scope string_scope.

(** ** Strings *)

Module Str.

(** [sub in s], Python's substring test. *)
Fixpoint infix (sub s : string) : bool :=
  String.prefix sub s
  || match s with
     | EmptyString => false
     | String _ rest => infix sub rest
     end.

(** Truthiness of a [str]. *)
Definition nonempty (s : string) : bool :=
  match s with EmptyString => false | String _ _ => true end.

(** [s[0]] of a non-empty [str]: the one-character string. *)
Definition first_char (s : string) : option string :=
  match s with
  | EmptyString => None
  | String c _ => Some (String c EmptyString)
  end.

End Str.

(** ** Python dictionaries, in insertion order *)

Module Dict.

Definition t (V : Type) : Type := list (string * V).

Definition empty {V} : t V := [].

(** [d.get(k)] *)
Fixpoint get {V} (k : string) (d : t V) : option V :=
  match d with
  | [] => None
  | (k', v) :: rest => if String.eqb k' k then Some v else get k rest
  end.

(** [k in d] *)
Definition mem {V} (k : string) (d : t V) : bool :=
  match get k d with Some _ => true | None => false end.

(** [d[k] = v]: a present key keeps its place, a new key goes last. *)
Fixpoint set {V} (k : string) (v : V) (d : t V) : t V :=
  match d with
  | [] => [(k, v)]
  | (k', v') :: rest =>
      if String.eqb k' k then (k', v) :: rest else (k', v') :: set k v rest
  end.

(** [d.keys()], [d.values()], [d.items()] *)
Definition keys {V} (d : t V) : list string := map fst d.
Definition values {V} (d : t V) : list V := map snd d.
Definition items {V} (d : t V) : list (string * V) := d.

(** A dictionary holds every key once. *)
Definition wf {V} (d : t V) : Prop := NoDup (keys d).

End Dict.

(** ** JSON values *)

Inductive json : Type :=
| JNull
| JBool (b : bool)
| JNum (n : Z)
| JStr (s : string)
| JArr (elems : list json)
| JObj (fields : list (string * json)).

(** Non-integer numbers are not represented; the code only ever tests a
    number for truthiness, where they behave as a non-zero [JNum]. *)

(** [bool(v)] *)
Definition truthy (v : json) : bool :=
  match v with
  | JNull => false
  | JBool b => b
  | JNum n => negb (Z.eqb n 0)
  | JStr s => Str.nonempty s
  | JArr l => match l with [] => false | _ :: _ => true end
  | JObj l => match l with [] => false | _ :: _ => true end
  end.

(** [v == s] for a string literal [s] *)
Definition is_str (s : string) (v : json) : bool :=
  match v with
  | JStr s' => String.eqb s' s
  | _ => false
  end.

(** ** Exceptions and outcomes *)

(** An exception raised inside the MCP client library (transport, protocol,
    validation or remote side).  The router only ever asks of it whether it
    is an instance of [asyncio.TimeoutError], and its [str()]. *)
Record lib_exn : Type := mk_lib_exn {
  lib_class : string;
  lib_message : string;
  lib_is_timeout : bool
}.

Inductive exn : Type :=
| ValueError (msg : string)
| TimeoutError (msg : string)
| AsyncioTimeoutError
| AttributeError (msg : string)
| TypeError (msg : string)
| KeyError (msg : string)
| IndexError (msg : string)
| LibraryError (e : lib_exn).

(** [str(e)] *)
Definition str_exn (e : exn) : string :=
  match e with
  | ValueError m | TimeoutError m | AttributeError m | TypeError m
  | KeyError m | IndexError m => m
  | AsyncioTimeoutError => EmptyString
  | LibraryError le => lib_message le
  end.

(** [isinstance(e, asyncio.TimeoutError)] *)
Definition is_asyncio_timeout (e : exn) : bool :=
  match e with
  | AsyncioTimeoutError => true
  | LibraryError le => lib_is_timeout le
  | _ => false
  end.

(** [type(v).__name__] *)
Definition type_name (v : json) : string :=
  match v with
  | JNull => "NoneType"
  | JBool _ => "bool"
  | JNum _ => "int"
  | JStr _ => "str"
  | JArr _ => "list"
  | JObj _ => "dict"
  end.

(** The error of [v.attr] when [v] has no such attribute. *)
Definition no_attribute (v : json) (attr : string) : exn :=
  AttributeError ("'" ++ type_name v ++ "' object has no attribute '"
                  ++ attr ++ "'").

Inductive outcome (A : Type) : Type :=
| Return (a : A)
| Raise (e : exn).
Arguments Return {A} a.
Arguments Raise {A} e.

Definition bind {A B} (m : outcome A) (k : A -> outcome B) : outcome B :=
  match m with
  | Return a => k a
  | Raise e => Raise e
  end.

Notation "x <- m ;; k" := (bind m (fun x => k))
  (at level 100, m at next level, right associativity).

(** ** Awaited operations and deadlines *)

(** What an awaited library call does: it completes after [elapsed] time
    units, with a value or with a library exception, or it never
    completes. *)
Inductive response (A : Type) : Type :=
| Replies (elapsed : N) (r : A + lib_exn)
| Hangs.
Arguments Replies {A} elapsed r.
Arguments Hangs {A}.

(** The deadline passes before the awaited call completes. *)
Definition deadline_elapsed {A} (timeout : N) (r : response A) : bool :=
  match r with
  | Replies elapsed _ => (timeout <=? elapsed)%N
  | Hangs => true
  end.

(** [await asyncio.wait_for(coro, timeout)] *)
Definition wait_for {A} (r : response A) (timeout : N) : outcome A :=
  match r with
  | Replies elapsed res =>
      if (timeout <=? elapsed)%N then Raise AsyncioTimeoutError
      else match res with
           | inl a => Return a
           | inr e => Raise (LibraryError e)
           end
  | Hangs => Raise AsyncioTimeoutError
  end.

(** ** The data of the MCP client library *)

(** [mcp.types.Tool]: the declared name and the input schema, a
    [dict[str, Any]]. *)
Record Tool : Type := mk_Tool {
  name : string;
  inputSchema : Dict.t json
}.

(** The elements of [CallToolResult.content]: only [TextContent] has the
    attribute [text]. *)
Inductive content_block : Type :=
| TextContent (text : string)
| OtherContent (class_name : string).

Record CallToolResult : Type := mk_CallToolResult {
  content : list content_block;
  isError : bool
}.

(** A [ClientSession] object, by identity. *)
Definition session : Type := nat.

(** What sits on the [AsyncExitStack]: the context managers entered by
    [start]. *)
Inductive resource : Type :=
| StdioClient (id : nat)
| SessionContext (sess : session).

(** [StdioServerParameters], once validated. *)
Record StdioServerParameters : Type := mk_params {
  command : string;
  args : list string
}.

(** What starting one server process does, step by step as [start] drives
    it: entering [stdio_client], entering [ClientSession], the handshake
    [session.initialize()] and [session.list_tools()].  A step is only looked
    at when the steps before it succeeded. *)
Record launch : Type := mk_launch {
  open_transport : nat + lib_exn;
  open_session : session + lib_exn;
  initialize : response unit;
  list_tools : list Tool + lib_exn
}.

(** What an exit callback of the stack answers to [__aexit__], given the
    exception pending at that point. *)
Inductive exit_result : Type :=
| ExitFalse
| ExitTrue
| ExitRaise (e : exn).

(** Everything outside the router: the host ([shutil.which],
    [sys.executable]), the processes it can spawn, the remote side of each
    session, the teardown of each open context, and [str()] of a call
    result. *)
Record world : Type := mk_world {
  which : string -> bool;
  sys_executable : string;
  spawn : string -> StdioServerParameters -> launch;
  remote_call : session -> string -> Dict.t json -> response CallToolResult;
  aexit : resource -> option exn -> exit_result;
  str_result : CallToolResult -> string
}.

(** ** The router *)

Record MultiMCP : Type := mk_MultiMCP {
  exit_stack : list resource;            (* top of the stack first *)
  sessions : Dict.t session;             (* server_name -> session *)
  tools : Dict.t (list Tool);            (* server_name -> [Tool] *)
  config_path : string;
  server_configs : json
}.

(** *** Configuration *)

(** What [_load_config] finds at [config_path]: no file, a file that
    [open] refuses, a file [json.load] refuses, or parsed data. *)
Inductive config_source : Type :=
| FileMissing
| FileUnreadable (e : lib_exn)
| FileMalformed (e : lib_exn)
| FileParsed (data : json).

Definition uv_run (script : string) : json :=
  JObj [("command", JStr "uv"); ("args", JArr [JStr "run"; JStr script])].

Definition default_servers : json :=
  JObj [("browser", uv_run "mcp_servers/server_browser.py");
        ("rag", uv_run "mcp_servers/server_rag.py");
        ("sandbox", uv_run "mcp_servers/server_sandbox.py")].

(** [v.get(key, default)]; only a [dict] has [get]. *)
Definition py_get (v : json) (key : string) (default : json) : outcome json :=
  match v with
  | JObj fields =>
      Return (match Dict.get key fields with Some x => x | None => default end)
  | _ => Raise (no_attribute v "get")
  end.

(** The body of the [try] of [_load_config]: [open], [json.load] and
    [data.get("mcpServers", {})]. *)
Definition read_config (src : config_source) : outcome json :=
  match src with
  | FileMissing => Raise (LibraryError (mk_lib_exn "FileNotFoundError"
                                           "No such file or directory" false))
  | FileUnreadable e => Raise (LibraryError e)
  | FileMalformed e => Raise (LibraryError e)
  | FileParsed data => py_get data "mcpServers" (JObj [])
  end.

(** [path.exists()] *)
Definition exists_ (src : config_source) : bool :=
  match src with FileMissing => false | _ => true end.

Definition _load_config (src : config_source) : outcome json :=
  if negb (exists_ src) then Return default_servers
  else match read_config src with
       | Return servers => Return servers
       | Raise _ => Return (JObj [])
       end.

Definition __init__ (path : string) (src : config_source)
  : outcome MultiMCP :=
  configs <- _load_config src ;;
  Return {| exit_stack := [];
            sessions := Dict.empty;
            tools := Dict.empty;
            config_path := path;
            server_configs := configs |}.

(** *** [start] *)

(** [v[0]] *)
Definition py_index0 (v : json) : outcome json :=
  match v with
  | JArr (x :: _) => Return x
  | JArr [] => Raise (IndexError "list index out of range")
  | JStr s =>
      match Str.first_char s with
      | Some c => Return (JStr c)
      | None => Raise (IndexError "string index out of range")
      end
  | JObj _ => Raise (KeyError "0")
  | _ => Raise (TypeError ("'" ++ type_name v
                           ++ "' object is not subscriptable"))
  end.

(** [v[1:] if len(v) > 1 else []], reached for a list only. *)
Definition py_drop_first (v : json) : json :=
  match v with
  | JArr l => if (1 <? length l)%nat then JArr (tl l) else JArr []
  | _ => v
  end.

(** Step 1 of the loop body, "Handle command resolution": the command and
    the arguments the server is launched with. *)
Definition command_resolution (w : world) (config : json)
  : outcome (json * json) :=
  cmd <- py_get config "command" (JStr "uv") ;;
  args <- py_get config "args" (JArr []) ;;
  if is_str "uv" cmd && negb (which w "uv") then
    let cmd := JStr (sys_executable w) in
    if truthy args then
      first <- py_index0 args ;;
      if is_str "run" first then Return (cmd, py_drop_first args)
      else Return (cmd, args)
    else Return (cmd, args)
  else Return (cmd, args).

(** Step 2, "Prepare Parameters": [StdioServerParameters] is a validated
    model, [command] must be a [str] and [args] a list of [str]. *)
Definition validation_error : exn :=
  LibraryError (mk_lib_exn "ValidationError" "validation error" false).

Fixpoint str_list (l : list json) : option (list string) :=
  match l with
  | [] => Some []
  | JStr s :: rest =>
      match str_list rest with
      | Some ss => Some (s :: ss)
      | None => None
      end
  | _ :: _ => None
  end.

Definition prepare_parameters (cmd args : json)
  : outcome StdioServerParameters :=
  match cmd, args with
  | JStr c, JArr l =>
      match str_list l with
      | Some ss => Return (mk_params c ss)
      | None => Raise validation_error
      end
  | _, _ => Raise validation_error
  end.

Definition push (r : resource) (self : MultiMCP) : MultiMCP :=
  {| exit_stack := r :: exit_stack self;
     sessions := sessions self;
     tools := tools self;
     config_path := config_path self;
     server_configs := server_configs self |}.

(** [self.sessions[name] = session; self.tools[name] = result.tools] *)
Definition register (name : string) (sess : session) (ts : list Tool)
    (self : MultiMCP) : MultiMCP :=
  {| exit_stack := exit_stack self;
     sessions := Dict.set name sess (sessions self);
     tools := Dict.set name ts (tools self);
     config_path := config_path self;
     server_configs := server_configs self |}.

(** Step 3, "Connect with Timeout Protection for Initialization".  Both
    handlers ([except asyncio.TimeoutError] and [except Exception]) only
    print, so a failing step leaves the router as the steps before it made
    it. *)
Definition connect (l : launch) (name : string) (self : MultiMCP)
  : MultiMCP :=
  match open_transport l with
  | inr _ => self
  | inl transport =>
      let self := push (StdioClient transport) self in
      match open_session l with
      | inr _ => self
      | inl sess =>
          let self := push (SessionContext sess) self in
          match wait_for (initialize l) 20 with
          | Raise _ => self
          | Return _ =>
              match list_tools l with
              | inr _ => self
              | inl ts => register name sess ts self
              end
          end
      end
  end.

(** One iteration of [for name, config in self.server_configs.items()]. *)
Definition start_server (w : world) (self : MultiMCP)
    (name : string) (config : json) : MultiMCP :=
  match command_resolution w config with
  | Raise _ => self
  | Return (cmd, args) =>
      match prepare_parameters cmd args with
      | Raise _ => self
      | Return server_params => connect (spawn w name server_params) name self
      end
  end.

Definition start (w : world) (self : MultiMCP) : outcome MultiMCP :=
  match server_configs self with
  | JObj items =>
      Return (fold_left
                (fun self item => start_server w self (fst item) (snd item))
                items self)
  | configs => Raise (no_attribute configs "items")
  end.

(** *** [stop] *)

(** [AsyncExitStack.__aexit__(None, None, None)]: every callback is popped
    and run, last entered first; a callback that raises replaces the pending
    exception, one that returns true clears it; what is pending at the end is
    raised. *)
Fixpoint run_exit_callbacks (w : world) (callbacks : list resource)
    (pending : option exn) : option exn :=
  match callbacks with
  | [] => pending
  | cb :: rest =>
      match aexit w cb pending with
      | ExitFalse => run_exit_callbacks w rest pending
      | ExitTrue => run_exit_callbacks w rest None
      | ExitRaise e => run_exit_callbacks w rest (Some e)
      end
  end.

(** [await self.exit_stack.aclose()]: the router after the call and the
    exception the call raises, if any. *)
Definition stop (w : world) (self : MultiMCP) : MultiMCP * option exn :=
  ({| exit_stack := [];
      sessions := sessions self;
      tools := tools self;
      config_path := config_path self;
      server_configs := server_configs self |},
   run_exit_callbacks w (exit_stack self) None).

(** *** Listing *)

Definition get_all_tools (self : MultiMCP) : list Tool :=
  fold_left (fun all_tools ts => (all_tools ++ ts)%list)
            (Dict.values (tools self)) [].

Definition get_tools_from_servers (self : MultiMCP)
    (server_names : list string) : list Tool :=
  fold_left (fun all_tools name =>
               match Dict.get name (tools self) with
               | Some ts => (all_tools ++ ts)%list
               | None => all_tools
               end)
            server_names [].

(** *** Calls *)

Definition not_connected (server_name : string) : exn :=
  ValueError ("Server '" ++ server_name ++ "' not connected").

Definition timed_out (tool_name server_name : string) : exn :=
  TimeoutError ("Tool '" ++ tool_name ++ "' on server '" ++ server_name
                ++ "' timed out after 20 seconds.").

Definition not_found (tool_name : string) : exn :=
  ValueError ("Tool '" ++ tool_name ++ "' not found in any server").

Definition call_tool (w : world) (self : MultiMCP)
    (server_name tool_name : string) (arguments : Dict.t json)
  : outcome CallToolResult :=
  match Dict.get server_name (sessions self) with
  | None => Raise (not_connected server_name)
  | Some sess =>
      match wait_for (remote_call w sess tool_name arguments) 20 with
      | Return result => Return result
      | Raise e =>
          if is_asyncio_timeout e then Raise (timed_out tool_name server_name)
          else Raise e
      end
  end.

(** The inner loop [for tool in tools: if tool.name == tool_name]. *)
Fixpoint find_tool (tool_name : string) (ts : list Tool) : option Tool :=
  match ts with
  | [] => None
  | tool :: rest =>
      if String.eqb (name tool) tool_name then Some tool
      else find_tool tool_name rest
  end.

Fixpoint route_scan (w : world) (self : MultiMCP)
    (items : list (string * list Tool))
    (tool_name : string) (arguments : Dict.t json)
  : outcome CallToolResult :=
  match items with
  | [] => Raise (not_found tool_name)
  | (name, ts) :: rest =>
      match find_tool tool_name ts with
      | Some _ => call_tool w self name tool_name arguments
      | None => route_scan w self rest tool_name arguments
      end
  end.

Definition route_tool_call (w : world) (self : MultiMCP)
    (tool_name : string) (arguments : Dict.t json)
  : outcome CallToolResult :=
  route_scan w self (Dict.items (tools self)) tool_name arguments.

(** *** The positional wrapper *)

(** The outer loop of the search for the tool definition, over
    [self.tools.values()]. *)
Fixpoint find_target (tool_name : string) (values : list (list Tool))
  : option Tool :=
  match values with
  | [] => None
  | ts :: rest =>
      match find_tool tool_name ts with
      | Some tool => Some tool
      | None => find_target tool_name rest
      end
  end.

(** [for i, arg in enumerate(args): if i < len(keys): arguments[keys[i]] = arg] *)
Fixpoint zip_loop (keys : list string) (i : nat) (args : list json)
    (arguments : Dict.t json) : Dict.t json :=
  match args with
  | [] => arguments
  | arg :: rest =>
      zip_loop keys (S i) rest
        (if (i <? length keys)%nat
         then Dict.set (nth i keys EmptyString) arg arguments
         else arguments)
  end.

(** "Map positional args to keyword args based on schema" *)
Definition map_arguments (schema : Dict.t json) (args : list json)
  : outcome (Dict.t json) :=
  if truthy (JObj schema) && Dict.mem "properties" schema then
    match Dict.get "properties" schema with
    | Some (JObj properties) =>
        Return (zip_loop (Dict.keys properties) 0 args Dict.empty)
    | Some properties => Raise (no_attribute properties "keys")
    | None => Raise (KeyError "'properties'")
    end
  else Return Dict.empty.

(** [result.content[0].text] *)
Definition first_text (result : CallToolResult) : outcome string :=
  match content result with
  | TextContent text :: _ => Return text
  | OtherContent cls :: _ =>
      Raise (AttributeError ("'" ++ cls ++ "' object has no attribute 'text'"))
  | [] => Raise (IndexError "list index out of range")
  end.

Definition function_wrapper (w : world) (self : MultiMCP)
    (tool_name : string) (args : list json) : outcome string :=
  match find_target tool_name (Dict.values (tools self)) with
  | None => Return ("Error: Tool " ++ tool_name ++ " not found")
  | Some target_tool =>
      arguments <- map_arguments (inputSchema target_tool) args ;;
      match
        (result <- route_tool_call w self tool_name arguments ;;
         match content result with
         | _ :: _ => first_text result
         | [] => Return (str_result w result)
         end)
      with
      | Return text => Return text
      | Raise e =>
          Return ("Error executing " ++ tool_name ++ ": " ++ str_exn e)
      end
  end.

(** ** Notions the properties are stated with *)

(** The server [route_tool_call] settles on: the first one, in the order of
    [self.tools], whose list declares [tool_name]. *)
Fixpoint owner_of (items : list (string * list Tool)) (tool_name : string)
  : option string :=
  match items with
  | [] => None
  | (name, ts) :: rest =>
      match find_tool tool_name ts with
      | Some _ => Some name
      | None => owner_of rest tool_name
      end
  end.

(** A list of descriptors declares a tool name. *)
Definition declares (ts : list Tool) (tool_name : string) : Prop :=
  In tool_name (map name ts).

(** The routers a program can hold: built by the constructor, then any
    sequence of [start] and [stop], in any world. *)
Inductive reachable : MultiMCP -> Prop :=
| reach_init path src self :
    __init__ path src = Return self -> reachable self
| reach_start w self self' :
    reachable self -> start w self = Return self' -> reachable self'
| reach_stop w self :
    reachable self -> reachable (fst (stop w self)).


(** The two maps list the same server names, in the same order, each name
    once. *)
Definition registry_ok (self : MultiMCP) : Prop :=
  Dict.keys (sessions self) = Dict.keys (tools self)
  /\ Dict.wf (tools self).

(** The tools a server name stands for in the tool map. *)
Definition tools_of (self : MultiMCP) (server : string) : list Tool :=
  match Dict.get server (tools self) with
  | Some ts => ts
  | None => []
  end.

(** What one iteration of [start] registers for a configured server: the
    session and the listed tools when every step of the launch goes through,
    nothing otherwise. *)
Definition registration (w : world) (name : string) (config : json)
  : option (session * list Tool) :=
  match command_resolution w config with
  | Raise _ => None
  | Return (cmd, args) =>
      match prepare_parameters cmd args with
      | Raise _ => None
      | Return server_params =>
          let l := spawn w name server_params in
          match open_transport l, open_session l,
                wait_for (initialize l) 20, list_tools l with
          | inl _, inl sess, Return _, inl ts => Some (sess, ts)
          | _, _, _, _ => None
          end
      end
  end.


(** [l] ends with [k]: Python's [l[-len(k):] == k]. *)
Definition ends_with {A} (l k : list A) : Prop :=
  exists front, l = (front ++ k)%list.

(** ** A concrete deployment, for examples *)

Module Demo.

Definition string_param : json := JObj [("type", JStr "string")].
Definition number_param : json := JObj [("type", JStr "number")].

Definition echo : Tool :=
  mk_Tool "echo" [("type", JStr "object");
                  ("properties", JObj [("text", string_param)])].

Definition add : Tool :=
  mk_Tool "add" [("type", JStr "object");
                 ("properties", JObj [("x", number_param);
                                      ("y", number_param)])].

(** A second [echo], declared by another server with another schema. *)
Definition echo2 : Tool :=
  mk_Tool "echo" [("type", JStr "object");
                  ("properties", JObj [("message", string_param)])].

(** A descriptor whose schema has a [properties] entry that is no
    mapping. *)
Definition odd : Tool := mk_Tool "odd" [("properties", JNull)].

Definition ok : response unit := Replies 1 (inl tt).

Definition refused : lib_exn :=
  mk_lib_exn "McpError" "Connection closed" false.

(** [browser] declares [echo]; [rag] declares [add] and an [echo] of its
    own; [sandbox] never answers the handshake; [notes] declares nothing;
    [odd] declares the descriptor [odd]; anything else fails to spawn. *)
Definition launches (name : string) (_ : StdioServerParameters) : launch :=
  if String.eqb name "browser" then
    mk_launch (inl 0) (inl 1) ok (inl [echo])
  else if String.eqb name "rag" then
    mk_launch (inl 2) (inl 3) ok (inl [add; echo2])
  else if String.eqb name "sandbox" then
    mk_launch (inl 4) (inl 5) Hangs (inl [])
  else if String.eqb name "notes" then
    mk_launch (inl 6) (inl 7) ok (inl [])
  else if String.eqb name "odd" then
    mk_launch (inl 8) (inl 9) ok (inl [odd])
  else
    mk_launch (inr refused) (inr refused) Hangs (inr refused).

Definition text_result (s : string) : CallToolResult :=
  mk_CallToolResult [TextContent s] false.

(** Session 1 echoes within a time unit; session 3 answers [add] after 3
    units and never answers anything else. *)
Definition remote (sess : session) (tool_name : string)
    (arguments : Dict.t json) : response CallToolResult :=
  match sess with
  | 1 => match Dict.get "text" arguments with
         | Some (JStr s) => Replies 1 (inl (text_result s))
         | _ => Replies 1 (inr refused)
         end
  | 3 => if String.eqb tool_name "add"
         then Replies 3 (inl (text_result "5"))
         else Hangs
  | _ => Replies 25 (inr refused)
  end.

(** A host without [uv], and without any other launcher. *)
Definition w : world :=
  mk_world (fun _ => false) "/usr/bin/python3" launches remote
           (fun _ _ => ExitFalse) (fun _ => "CallToolResult()").

Definition config (names : list string) : json :=
  JObj (map (fun n => (n, uv_run ("mcp_servers/server_" ++ n ++ ".py")))
            names).

Definition fresh (names : list string) : MultiMCP :=
  mk_MultiMCP [] Dict.empty Dict.empty "mcp_config.json" (config names).

(** The router after [start], for the given configured names. *)
Definition started (names : list string) : MultiMCP :=
  match start w (fresh names) with
  | Return self => self
  | Raise _ => fresh names
  end.

Definition served : MultiMCP :=
  Eval vm_compute in started ["browser"; "rag"; "sandbox"; "notes"].

End Demo.

(** Two more hosts: one that has [uv], one where closing the first
    transport fails. *)
Module Hosts.

Definition with_uv : world :=
  mk_world (fun c => String.eqb c "uv") "/usr/bin/python3" Demo.launches
           Demo.remote (fun _ _ => ExitFalse) (fun _ => "CallToolResult()").

Definition broken_pipe : exn :=
  LibraryError (mk_lib_exn "BrokenResourceError" "broken pipe" false).

Definition failing_teardown : world :=
  mk_world (fun _ => false) "/usr/bin/python3" Demo.launches Demo.remote
           (fun r _ => match r with
                       | StdioClient 0 => ExitRaise broken_pipe
                       | _ => ExitFalse
                       end)
           (fun _ => "CallToolResult()").

End Hosts.

Example demo_served_sessions :
  Dict.keys (sessions Demo.served) = ["browser"; "rag"; "notes"].
Proof. reflexivity. Qed.

(** * Properties *)

(** ** Strings and dictionaries *)

Lemma prefix_app (sub post : string) : String.prefix sub (sub ++ post) = true.
Proof.
  induction sub as [|c sub IH]; simpl.
  - now destruct post.
  - destruct (ascii_dec c c) as [_|ne]; [exact IH | now elim ne].
Qed.

Lemma append_assoc (a b c : string) : (a ++ b) ++ c = a ++ b ++ c.
Proof. induction a as [|x a IH]; simpl; [reflexivity | now rewrite IH]. Qed.

Lemma infix_unfold (sub s : string) :
  Str.infix sub s
  = String.prefix sub s
    || match s with
       | EmptyString => false
       | String _ rest => Str.infix sub rest
       end.
Proof. destruct s; reflexivity. Qed.

Lemma infix_app (pre sub post : string) :
  Str.infix sub (pre ++ sub ++ post) = true.
Proof.
  induction pre as [|c pre IH].
  - rewrite infix_unfold. simpl append. now rewrite prefix_app.
  - simpl. rewrite IH. apply orb_true_r.
Qed.

Section DictFacts.
Context {V : Type}.
Implicit Types (d : Dict.t V) (k : string) (v : V).

Lemma get_set_same k v d : Dict.get k (Dict.set k v d) = Some v.
Proof.
  induction d as [|[k' v'] d IH]; simpl.
  - now rewrite String.eqb_refl.
  - destruct (String.eqb k' k) eqn:E; simpl; rewrite E; auto.
Qed.

Lemma get_set_other k k' v d :
  k <> k' -> Dict.get k' (Dict.set k v d) = Dict.get k' d.
Proof.
  intros ne. induction d as [|[k0 v0] d IH]; simpl.
  - destruct (String.eqb_spec k k'); congruence.
  - destruct (String.eqb_spec k0 k) as [->|]; simpl.
    + destruct (String.eqb_spec k k'); congruence.
    + now rewrite IH.
Qed.

Lemma mem_keys k d : Dict.mem k d = true <-> In k (Dict.keys d).
Proof.
  unfold Dict.mem. induction d as [|[k' v'] d IH]; simpl.
  - split; [discriminate | tauto].
  - destruct (String.eqb_spec k' k) as [->|ne].
    + split; auto.
    + rewrite IH. split; [auto | intros [e|i]; [congruence | exact i]].
Qed.

Lemma get_keys k d :
  In k (Dict.keys d) -> exists v, Dict.get k d = Some v.
Proof.
  intros i. apply mem_keys in i. unfold Dict.mem in i.
  destruct (Dict.get k d) as [v|]; [now exists v | discriminate].
Qed.

Lemma set_fresh k v d :
  ~ In k (Dict.keys d) -> Dict.set k v d = (d ++ [(k, v)])%list.
Proof.
  induction d as [|[k' v'] d IH]; simpl; intros ni.
  - reflexivity.
  - destruct (String.eqb_spec k' k) as [->|ne].
    + elim ni. now left.
    + rewrite IH; [reflexivity | tauto].
Qed.
End DictFacts.

(** Assigning the same key in two dictionaries with the same keys leaves
    them with the same keys, whatever the values. *)
Lemma keys_set_same {V W : Type} (k : string) (v : V) (x : W)
    (d : Dict.t V) (e : Dict.t W) :
  Dict.keys d = Dict.keys e ->
  Dict.keys (Dict.set k v d) = Dict.keys (Dict.set k x e).
Proof.
  revert e. induction d as [|[k1 v1] d IH]; intros [|[k2 x2] e]; simpl;
    try discriminate; auto.
  intros eq. injection eq as -> eq.
  destruct (String.eqb k2 k); simpl; f_equal; auto.
Qed.

(** ** The scans *)

Lemma find_tool_name tool_name ts tool :
  find_tool tool_name ts = Some tool -> name tool = tool_name /\ In tool ts.
Proof.
  induction ts as [|t ts IH]; simpl; [discriminate|].
  destruct (String.eqb_spec (name t) tool_name) as [e|ne].
  - intros [= <-]. auto.
  - intros f. destruct (IH f). auto.
Qed.

Lemma find_tool_none tool_name ts :
  find_tool tool_name ts = None <-> ~ declares ts tool_name.
Proof.
  unfold declares. induction ts as [|t ts IH]; simpl.
  - tauto.
  - destruct (String.eqb_spec (name t) tool_name) as [e|ne].
    + split; [discriminate | intros n; elim n; auto].
    + rewrite IH. tauto.
Qed.

Lemma find_tool_declared tool_name ts :
  declares ts tool_name -> exists tool, find_tool tool_name ts = Some tool.
Proof.
  intros d. destruct (find_tool tool_name ts) as [tool|] eqn:E.
  - now exists tool.
  - apply find_tool_none in E. contradiction.
Qed.

(** [route_tool_call] is the scan for the owner followed by [call_tool]. *)
Lemma route_scan_owner w self items tool_name arguments :
  route_scan w self items tool_name arguments
  = match owner_of items tool_name with
    | Some owner => call_tool w self owner tool_name arguments
    | None => Raise (not_found tool_name)
    end.
Proof.
  induction items as [|[n ts] items IH]; simpl; [reflexivity|].
  destruct (find_tool tool_name ts); [reflexivity | exact IH].
Qed.

Lemma owner_of_none items tool_name :
  owner_of items tool_name = None
  <-> forall server ts, In (server, ts) items -> ~ declares ts tool_name.
Proof.
  induction items as [|[n ts] items IH]; simpl.
  - split; [intros _ ? ? [] | reflexivity].
  - destruct (find_tool tool_name ts) as [tool|] eqn:E.
    + split; [discriminate|]. intros H.
      apply find_tool_name in E as [e i].
      elim (H n ts (or_introl eq_refl)).
      unfold declares. rewrite <- e. now apply in_map.
    + rewrite IH. apply find_tool_none in E. split.
      * intros H server ts' [[= <- <-]|i]; [exact E | eauto].
      * intros H server ts' i. eauto.
Qed.

Lemma owner_of_first before owner ts after tool_name :
  declares ts tool_name ->
  (forall n ts', In (n, ts') before -> ~ declares ts' tool_name) ->
  owner_of (before ++ (owner, ts) :: after)%list tool_name = Some owner.
Proof.
  intros d. induction before as [|[n0 ts0] before IH]; simpl; intros nd.
  - destruct (find_tool_declared _ _ d) as [tool ->]. reflexivity.
  - assert (E : find_tool tool_name ts0 = None)
      by (apply find_tool_none, (nd n0); now left).
    rewrite E. apply IH. intros n ts' i. apply (nd n). now right.
Qed.

Lemma owner_of_some items tool_name owner :
  owner_of items tool_name = Some owner ->
  exists before ts after,
    items = (before ++ (owner, ts) :: after)%list
    /\ declares ts tool_name
    /\ forall n ts', In (n, ts') before -> ~ declares ts' tool_name.
Proof.
  induction items as [|[n ts] items IH]; simpl; [discriminate|].
  destruct (find_tool tool_name ts) as [tool|] eqn:E.
  - intros [= <-]. exists [], ts, items. repeat split.
    + apply find_tool_name in E as [e i]. unfold declares.
      rewrite <- e. now apply in_map.
    + intros ? ? [].
  - intros o. destruct (IH o) as (before & ts1 & after & -> & d & nd).
    exists ((n, ts) :: before), ts1, after. repeat split; auto.
    intros n' ts' [[= <- <-]|i]; [now apply find_tool_none | eauto].
Qed.

(** The search of [function_wrapper] stops in the same server as the scan
    of [route_tool_call]. *)
Lemma find_target_first before owner ts after tool_name :
  (forall n ts', In (n, ts') before -> ~ declares ts' tool_name) ->
  declares ts tool_name ->
  find_target tool_name (Dict.values (before ++ (owner, ts) :: after)%list)
  = find_tool tool_name ts.
Proof.
  intros nd d. unfold Dict.values.
  induction before as [|[n0 ts0] before IH]; simpl.
  - destruct (find_tool_declared _ _ d) as [tool ->]. reflexivity.
  - assert (E : find_tool tool_name ts0 = None)
      by (apply find_tool_none, (nd n0); now left).
    rewrite E. apply IH. intros n ts' i. apply (nd n). now right.
Qed.

Lemma find_target_none items tool_name :
  find_target tool_name (Dict.values items) = None
  <-> owner_of items tool_name = None.
Proof.
  unfold Dict.values.
  induction items as [|[n ts] items IH]; simpl; [tauto|].
  destruct (find_tool tool_name ts); [split; discriminate | exact IH].
Qed.

(** ** [call_tool] *)

Lemma wait_for_cases {A} (r : response A) (timeout : N) :
  (deadline_elapsed timeout r = true /\ wait_for r timeout = Raise AsyncioTimeoutError)
  \/ (exists t a, r = Replies t (inl a) /\ (t < timeout)%N
                  /\ wait_for r timeout = Return a)
  \/ (exists t e, r = Replies t (inr e) /\ (t < timeout)%N
                  /\ wait_for r timeout = Raise (LibraryError e)).
Proof.
  destruct r as [t [a|e]|]; simpl; auto;
    destruct (N.leb_spec timeout t); auto; right; [left|right]; eauto.
Qed.

(** An error of [call_tool] is never the not-found error of the scan. *)
Lemma call_tool_not_not_found w self server tool_name arguments other :
  call_tool w self server tool_name arguments <> Raise (not_found other).
Proof.
  unfold call_tool. destruct (Dict.get server (sessions self)) as [sess|].
  - destruct (wait_for_cases (remote_call w sess tool_name arguments) 20)
      as [[_ ->]|[(t & a & _ & _ & ->)|(t & e & _ & _ & ->)]]; simpl;
      try destruct (lib_is_timeout e); discriminate.
  - discriminate.
Qed.

(** ** Routing by name *)

(** C1. Name collisions are resolved first-match-wins: when the tool map
    reads [before ++ (owner, ts) :: after], [ts] declares the tool name and
    no server of [before] does (servers of [after] may), then
    [route_tool_call] dispatches to [owner] through [call_tool], the search
    of [function_wrapper] picks its descriptor in [owner]'s list, and the
    owner is determined by the registry alone: any other way of reading the
    same tool map as "first declaring server" names the same owner. *)
Theorem first_registered_owner_wins
    (w : world) (self : MultiMCP) (tool_name : string)
    (arguments : Dict.t json)
    (before : Dict.t (list Tool)) (owner : string) (ts : list Tool)
    (after : Dict.t (list Tool)) :
  tools self = (before ++ (owner, ts) :: after)%list ->
  declares ts tool_name ->
  (forall n ts', In (n, ts') before -> ~ declares ts' tool_name) ->
  route_tool_call w self tool_name arguments
  = call_tool w self owner tool_name arguments
  /\ find_target tool_name (Dict.values (tools self))
     = find_tool tool_name ts
  /\ forall before' owner' ts' after',
       tools self = (before' ++ (owner', ts') :: after')%list ->
       declares ts' tool_name ->
       (forall n t, In (n, t) before' -> ~ declares t tool_name) ->
       owner' = owner.
Proof.
  intros shape d nd.
  assert (O : owner_of (tools self) tool_name = Some owner)
    by (rewrite shape; now apply owner_of_first).
  split; [|split].
  - unfold route_tool_call, Dict.items. now rewrite route_scan_owner, O.
  - rewrite shape. now apply find_target_first.
  - intros before' owner' ts' after' shape' d' nd'.
    assert (O' : owner_of (tools self) tool_name = Some owner')
      by (rewrite shape'; now apply owner_of_first).
    congruence.
Qed.

Lemma first_registered_owner_wins_witness :
  route_tool_call Demo.w Demo.served "echo" [("text", JStr "hi")]
  = call_tool Demo.w Demo.served "browser" "echo" [("text", JStr "hi")]
  /\ find_target "echo" (Dict.values (tools Demo.served))
     = find_tool "echo" [Demo.echo].
Proof.
  destruct (first_registered_owner_wins Demo.w Demo.served "echo"
              [("text", JStr "hi")] [] "browser" [Demo.echo]
              [("rag", [Demo.add; Demo.echo2]); ("notes", [])])
    as (routed & found & _).
  - reflexivity.
  - unfold declares. simpl. auto.
  - intros n ts' [].
  - split; [exact routed | exact found].
Defined.

(** C6. [route_tool_call] raises its not-found error exactly when no server
    of the tool map declares the name; when some server declares it, the scan
    settles on an owner, the first one in the order of the map, and the call
    is [call_tool] for that owner with the same tool name and the same
    arguments. *)
Theorem route_tool_call_not_found_iff
    (w : world) (self : MultiMCP) (tool_name : string)
    (arguments : Dict.t json) :
  (route_tool_call w self tool_name arguments = Raise (not_found tool_name)
   <-> forall server ts,
         In (server, ts) (Dict.items (tools self)) ->
         ~ declares ts tool_name)
  /\ (forall server ts,
        In (server, ts) (Dict.items (tools self)) ->
        declares ts tool_name ->
        exists before owner ts' after,
          tools self = (before ++ (owner, ts') :: after)%list
          /\ declares ts' tool_name
          /\ (forall n t, In (n, t) before -> ~ declares t tool_name)
          /\ route_tool_call w self tool_name arguments
             = call_tool w self owner tool_name arguments).
Proof.
  unfold route_tool_call, Dict.items. rewrite route_scan_owner. split.
  - rewrite <- owner_of_none.
    destruct (owner_of (tools self) tool_name) as [owner|].
    + split; [|discriminate]. intros bad.
      now apply call_tool_not_not_found in bad.
    + tauto.
  - intros server ts i d.
    destruct (owner_of (tools self) tool_name) as [owner|] eqn:O.
    + destruct (owner_of_some _ _ _ O) as (before & ts' & after & e & d' & nd).
      exists before, owner, ts', after. auto.
    + elim (proj1 (owner_of_none _ _) O server ts i d).
Qed.

Lemma route_tool_call_not_found_iff_witness :
  route_tool_call Demo.w Demo.served "missing" []
  = Raise (not_found "missing")
  /\ exists owner,
       route_tool_call Demo.w Demo.served "add" []
       = call_tool Demo.w Demo.served owner "add" [].
Proof.
  split.
  - apply (route_tool_call_not_found_iff Demo.w Demo.served "missing" []).
    intros server ts i. unfold declares. simpl in i.
    destruct i as [e|[e|[e|[]]]]; injection e as <- <-; simpl; intuition discriminate.
  - destruct (proj2 (route_tool_call_not_found_iff Demo.w Demo.served "add" [])
                "rag" [Demo.add; Demo.echo2])
      as (before & owner & ts' & after & _ & _ & _ & routed).
    + simpl. auto.
    + unfold declares. simpl. auto.
    + exists owner. exact routed.
Defined.

(** ** Calls on a named server *)

(** C3. [call_tool] raises the not-connected error when the server name has
    no entry in the session map.  Otherwise the call goes to that entry's
    session under a deadline of 20 time units: when the deadline passes
    first, [call_tool] raises a timeout error whose message names the server
    and the tool; when the session answers with a result before it, that
    result is returned as it is. *)
Theorem call_tool_spec
    (w : world) (self : MultiMCP) (server_name tool_name : string)
    (arguments : Dict.t json) :
  (Dict.mem server_name (sessions self) = false ->
   call_tool w self server_name tool_name arguments
   = Raise (not_connected server_name))
  /\ (forall sess,
        Dict.get server_name (sessions self) = Some sess ->
        let reply := remote_call w sess tool_name arguments in
        call_tool w self server_name tool_name arguments
        = match wait_for reply 20 with
          | Return result => Return result
          | Raise e => if is_asyncio_timeout e
                       then Raise (timed_out tool_name server_name)
                       else Raise e
          end
        /\ (deadline_elapsed 20 reply = true ->
            exists msg,
              call_tool w self server_name tool_name arguments
              = Raise (TimeoutError msg)
              /\ Str.infix server_name msg = true
              /\ Str.infix tool_name msg = true)
        /\ (forall t result,
              reply = Replies t (inl result) -> (t < 20)%N ->
              call_tool w self server_name tool_name arguments
              = Return result)).
Proof.
  unfold call_tool, Dict.mem. split.
  - destruct (Dict.get server_name (sessions self)); [discriminate | reflexivity].
  - intros sess ->. cbv zeta. split; [reflexivity|]. split.
    + intros late.
      exists ("Tool '" ++ tool_name ++ "' on server '" ++ server_name
              ++ "' timed out after 20 seconds.").
      repeat split.
      * destruct (remote_call w sess tool_name arguments) as [t r|];
          simpl in *; [rewrite late|]; reflexivity.
      * rewrite <- (append_assoc "Tool '" tool_name), <- append_assoc.
        apply infix_app.
      * apply (infix_app "Tool '" tool_name).
    + intros t result -> early. simpl.
      destruct (N.leb_spec 20 t); [lia | reflexivity].
Qed.

Lemma call_tool_spec_witness :
  call_tool Demo.w Demo.served "ghost" "echo" []
  = Raise (not_connected "ghost")
  /\ (exists msg,
        call_tool Demo.w Demo.served "rag" "echo" [] = Raise (TimeoutError msg)
        /\ Str.infix "rag" msg = true /\ Str.infix "echo" msg = true)
  /\ call_tool Demo.w Demo.served "rag" "add" []
     = Return (Demo.text_result "5").
Proof.
  split; [|split].
  - apply (call_tool_spec Demo.w Demo.served "ghost" "echo" []). reflexivity.
  - apply (proj2 (call_tool_spec Demo.w Demo.served "rag" "echo" []) 3);
      reflexivity.
  - apply (proj2 (call_tool_spec Demo.w Demo.served "rag" "add" []) 3
             eq_refl) with (t := 3%N); [reflexivity | lia].
Defined.

(** ** The positional-argument adapter *)

Lemma skipn_nth {A} (d : A) (l : list A) (i : nat) :
  i < length l -> skipn i l = nth i l d :: skipn (S i) l.
Proof.
  revert i. induction l as [|x l IH]; intros [|i] lt; simpl in *;
    try lia; [reflexivity|].
  apply IH. lia.
Qed.

(** The loop assigns the pairs of keys, from the [i]-th on, and values in
    turn. *)
Lemma zip_loop_fold keys args : forall i arguments,
  zip_loop keys i args arguments
  = fold_left (fun acc kv => Dict.set (fst kv) (snd kv) acc)
              (combine (skipn i keys) args) arguments.
Proof.
  induction args as [|arg args IH]; intros i arguments; simpl.
  - now rewrite combine_nil.
  - rewrite IH. destruct (Nat.ltb_spec i (length keys)) as [lt|ge].
    + now rewrite (skipn_nth EmptyString keys i lt).
    + rewrite !skipn_all2 by lia. reflexivity.
Qed.

(** Assigning fresh, distinct keys appends the pairs in order. *)
Lemma fold_set_fresh (kvs : list (string * json)) : forall acc,
  NoDup (map fst kvs) ->
  (forall k, In k (map fst kvs) -> ~ In k (Dict.keys acc)) ->
  fold_left (fun acc kv => Dict.set (fst kv) (snd kv) acc) kvs acc
  = (acc ++ kvs)%list.
Proof.
  induction kvs as [|[k v] kvs IH]; intros acc nd fresh; simpl.
  - now rewrite app_nil_r.
  - inversion nd as [|? ? nk nd']; subst.
    rewrite set_fresh by (apply fresh; now left).
    rewrite IH; auto.
    + now rewrite <- app_assoc.
    + intros k' i. unfold Dict.keys. rewrite map_app, in_app_iff.
      intros [old|[<-|[]]]; [|contradiction].
      apply (fresh k'); [now right | exact old].
Qed.

Lemma NoDup_combine_fst (keys : list string) : forall (args : list json),
  NoDup keys -> NoDup (map fst (combine keys args)).
Proof.
  induction keys as [|k keys IH]; intros [|a args] nd; simpl;
    try constructor; inversion nd; subst; auto.
  intros i. apply in_map_iff in i as [[k' a'] [<- i]].
  apply in_combine_l in i. contradiction.
Qed.

Lemma zip_loop_combine keys args :
  NoDup keys -> zip_loop keys 0 args Dict.empty = combine keys args.
Proof.
  intros nd. rewrite zip_loop_fold. simpl skipn.
  rewrite fold_set_fresh; auto using NoDup_combine_fst.
Qed.

Lemma map_arguments_properties schema properties args :
  Dict.get "properties" schema = Some (JObj properties) ->
  map_arguments schema args
  = Return (zip_loop (Dict.keys properties) 0 args Dict.empty).
Proof.
  intros g. unfold map_arguments, Dict.mem. rewrite g.
  destruct schema; [discriminate | reflexivity].
Qed.

(** C2. The adapter zips the positional values to the parameter names of
    the schema, pairwise and in declared order: the mapping is the list of
    pairs of the names and the values, cut at the shorter of the two.  With
    names [p1, p2] the values [a, b, c] give [{p1: a, p2: b}] and the value
    [a] gives [{p1: a}], without [p2]; with no declared name, or without
    the key [properties], the mapping is empty whatever the values. *)
Theorem map_arguments_zip
    (schema : Dict.t json) (properties : Dict.t json) :
  Dict.get "properties" schema = Some (JObj properties) ->
  Dict.wf properties ->
  (forall args,
     map_arguments schema args
     = Return (combine (Dict.keys properties) args))
  /\ (forall p1 p2 a b c,
        Dict.keys properties = [p1; p2] ->
        map_arguments schema [a; b; c] = Return [(p1, a); (p2, b)]
        /\ map_arguments schema [a] = Return [(p1, a)]
        /\ Dict.mem p2 [(p1, a)] = false)
  /\ (Dict.keys properties = [] ->
      forall args, map_arguments schema args = Return Dict.empty)
  /\ (forall schema' args,
        Dict.get "properties" schema' = None ->
        map_arguments schema' args = Return Dict.empty).
Proof.
  intros g nd.
  assert (zip : forall args,
             map_arguments schema args
             = Return (combine (Dict.keys properties) args)).
  { intros args. rewrite (map_arguments_properties _ _ _ g).
    now rewrite zip_loop_combine. }
  split; [exact zip|]. split; [|split].
  - intros p1 p2 a b c ks. rewrite !zip, ks. repeat split.
    unfold Dict.wf in nd. rewrite ks in nd.
    inversion nd as [|? ? ni _]; subst.
    unfold Dict.mem. simpl.
    destruct (String.eqb_spec p1 p2) as [->|]; [|reflexivity].
    elim ni. now left.
  - intros ks args. now rewrite zip, ks.
  - intros schema' args g'. unfold map_arguments, Dict.mem. rewrite g'.
    now rewrite andb_false_r.
Qed.

Lemma map_arguments_zip_witness :
  map_arguments (inputSchema Demo.add) [JNum 2; JNum 3; JNum 9]
  = Return [("x", JNum 2); ("y", JNum 3)]
  /\ map_arguments (inputSchema Demo.add) [JNum 2] = Return [("x", JNum 2)]
  /\ Dict.mem "y" [("x", JNum 2)] = false.
Proof.
  apply (map_arguments_zip (inputSchema Demo.add)
           [("x", Demo.number_param); ("y", Demo.number_param)]).
  - reflexivity.
  - unfold Dict.wf. simpl.
    repeat constructor; simpl; intuition discriminate.
  - reflexivity.
Defined.

(** ** The positional wrapper *)

(** An unknown tool name is answered with a string that holds the name. *)
Lemma function_wrapper_unknown_tool w self tool_name args :
  (forall server ts,
     In (server, ts) (Dict.items (tools self)) -> ~ declares ts tool_name) ->
  function_wrapper w self tool_name args
  = Return ("Error: Tool " ++ tool_name ++ " not found")
  /\ Str.infix tool_name ("Error: Tool " ++ tool_name ++ " not found") = true.
Proof.
  intros nobody. split; [|apply (infix_app "Error: Tool ")].
  unfold function_wrapper, Dict.items in *.
  apply owner_of_none, find_target_none in nobody. now rewrite nobody.
Qed.

(** Once the argument mapping is built, whatever the routed call does, a
    result, or any exception of [route_tool_call] and [call_tool], the
    wrapper returns a string; for an exception [e] it is the message
    [Error executing <tool>: <str(e)>]. *)
Lemma function_wrapper_catches_call_errors
    w self tool_name args target_tool arguments :
  find_target tool_name (Dict.values (tools self)) = Some target_tool ->
  map_arguments (inputSchema target_tool) args = Return arguments ->
  (exists text, function_wrapper w self tool_name args = Return text)
  /\ forall e,
       route_tool_call w self tool_name arguments = Raise e ->
       function_wrapper w self tool_name args
       = Return ("Error executing " ++ tool_name ++ ": " ++ str_exn e).
Proof.
  intros found mapped. unfold function_wrapper. rewrite found, mapped.
  simpl bind. split.
  - destruct (route_tool_call w self tool_name arguments) as [result|e];
      simpl; [|eauto].
    unfold first_text.
    destruct (content result) as [|[text|cls] rest]; eauto.
  - intros e ->. reflexivity.
Qed.

(** A descriptor whose schema maps [properties] to something that is no
    mapping makes the adapter raise, before the [try] of the wrapper. *)
Lemma function_wrapper_schema_error
    w self tool_name args target_tool properties :
  find_target tool_name (Dict.values (tools self)) = Some target_tool ->
  Dict.get "properties" (inputSchema target_tool) = Some properties ->
  (forall fields, properties <> JObj fields) ->
  function_wrapper w self tool_name args
  = Raise (no_attribute properties "keys").
Proof.
  intros found g odd. unfold function_wrapper, map_arguments, Dict.mem.
  rewrite found, g.
  destruct (inputSchema target_tool); [discriminate|].
  destruct properties; try reflexivity. now elim (odd fields).
Qed.

Lemma demo_fresh names :
  __init__ "mcp_config.json"
           (FileParsed (JObj [("mcpServers", Demo.config names)]))
  = Return (Demo.fresh names).
Proof. reflexivity. Qed.

Lemma demo_reachable names : reachable (Demo.started names).
Proof.
  apply (reach_start Demo.w (Demo.fresh names)).
  - exact (reach_init _ _ _ (demo_fresh names)).
  - reflexivity.
Qed.

(** C4. The wrapper does propagate an exception: a server that was started
    and listed a descriptor [odd] whose schema reads [{"properties": null}]
    makes [function_wrapper("odd")] raise the [AttributeError] of
    [None.keys()], which the argument mapping raises outside the [try]. *)
Theorem function_wrapper_propagates_schema_error :
  reachable (Demo.started ["odd"])
  /\ tools (Demo.started ["odd"]) = [("odd", [Demo.odd])]
  /\ function_wrapper Demo.w (Demo.started ["odd"]) "odd" []
     = Raise (AttributeError "'NoneType' object has no attribute 'keys'").
Proof.
  split; [apply demo_reachable|]. split; reflexivity.
Qed.

(** ** Teardown *)



(** ** The registry invariant *)

Lemma keys_set {V} (k : string) (v : V) (d : Dict.t V) :
  Dict.keys (Dict.set k v d)
  = if Dict.mem k d then Dict.keys d else (Dict.keys d ++ [k])%list.
Proof.
  unfold Dict.mem. induction d as [|[k' v'] d IH]; simpl; [reflexivity|].
  destruct (String.eqb k' k) eqn:E; simpl; [reflexivity|].
  rewrite IH. now destruct (Dict.get k d).
Qed.

Lemma wf_set {V} (k : string) (v : V) (d : Dict.t V) :
  Dict.wf d -> Dict.wf (Dict.set k v d).
Proof.
  unfold Dict.wf. intros nd. rewrite keys_set.
  destruct (Dict.mem k d) eqn:M; [exact nd|].
  apply NoDup_app; [exact nd | repeat constructor; intros [] |].
  intros k' i [<-|[]]. apply mem_keys in i. congruence.
Qed.

Lemma connect_ok l name self : registry_ok self -> registry_ok (connect l name self).
Proof.
  intros [same nd]. unfold connect.
  destruct (open_transport l); [|now split].
  destruct (open_session l); [|now split].
  destruct (wait_for (initialize l) 20); [|now split].
  destruct (list_tools l); [|now split].
  split; simpl; [now apply keys_set_same | now apply wf_set].
Qed.

Lemma start_server_ok w self name config :
  registry_ok self -> registry_ok (start_server w self name config).
Proof.
  intros ok. unfold start_server.
  destruct (command_resolution w config) as [[cmd a]|]; [|exact ok].
  destruct (prepare_parameters cmd a); [|exact ok].
  now apply connect_ok.
Qed.

Lemma start_ok w self self' :
  registry_ok self -> start w self = Return self' -> registry_ok self'.
Proof.
  unfold start. destruct (server_configs self) as [| | | | |items];
    try discriminate.
  intros ok [= <-]. revert self ok.
  induction items as [|[name config] items IH]; intros self ok; simpl.
  - exact ok.
  - apply IH. now apply start_server_ok.
Qed.

Lemma reachable_ok self : reachable self -> registry_ok self.
Proof.
  induction 1 as [path src self made|w self self' _ IH started|w self _ IH].
  - unfold __init__ in made. destruct (_load_config src); [|discriminate].
    injection made as <-. split; [reflexivity | constructor].
  - exact (start_ok _ _ _ IH started).
  - exact IH.
Qed.

(** C10. In every router a program can hold, after the constructor and
    after any [start] and [stop], the session map and the tool map have the
    same keys, in the same order: a server name is in one exactly when it is
    in the other.  So the server [route_tool_call] settles on has a session,
    [call_tool] for it does not take its not-connected branch, and
    [route_tool_call] never ends in a not-connected error. *)
Theorem registry_keys_agree (self : MultiMCP) :
  reachable self ->
  Dict.keys (sessions self) = Dict.keys (tools self)
  /\ (forall server,
        Dict.mem server (sessions self) = Dict.mem server (tools self))
  /\ (forall w tool_name arguments owner,
        owner_of (tools self) tool_name = Some owner ->
        Dict.mem owner (sessions self) = true
        /\ route_tool_call w self tool_name arguments
           = call_tool w self owner tool_name arguments
        /\ call_tool w self owner tool_name arguments
           <> Raise (not_connected owner))
  /\ (forall w tool_name arguments server,
        route_tool_call w self tool_name arguments
        <> Raise (not_connected server)).
Proof.
  intros r. destruct (reachable_ok self r) as [same _].
  assert (mems : forall server,
             Dict.mem server (sessions self) = Dict.mem server (tools self)).
  { intros server.
    destruct (Dict.mem server (tools self)) eqn:M.
    - apply mem_keys. rewrite same. now apply mem_keys.
    - destruct (Dict.mem server (sessions self)) eqn:M'; [|reflexivity].
      apply mem_keys in M'. rewrite same in M'. apply mem_keys in M'.
      congruence. }
  assert (owned : forall tool_name owner,
             owner_of (tools self) tool_name = Some owner ->
             exists sess, Dict.get owner (sessions self) = Some sess).
  { intros tool_name owner O.
    destruct (owner_of_some _ _ _ O) as (before & ts & after & shape & _).
    apply get_keys. rewrite same, shape. unfold Dict.keys.
    rewrite map_app. apply in_or_app. right. now left. }
  assert (live : forall w tool_name arguments owner sess,
             Dict.get owner (sessions self) = Some sess ->
             forall server,
               call_tool w self owner tool_name arguments
               <> Raise (not_connected server)).
  { intros w tool_name arguments owner sess g server.
    unfold call_tool. rewrite g.
    destruct (wait_for_cases (remote_call w sess tool_name arguments) 20)
      as [[_ ->]|[(t & a & _ & _ & ->)|(t & e & _ & _ & ->)]]; simpl;
      try destruct (lib_is_timeout e); discriminate. }
  split; [exact same|]. split; [exact mems|]. split.
  - intros w tool_name arguments owner O.
    destruct (owned _ _ O) as [sess g]. repeat split.
    + unfold Dict.mem. now rewrite g.
    + unfold route_tool_call, Dict.items. now rewrite route_scan_owner, O.
    + now apply (live w tool_name arguments owner sess).
  - intros w tool_name arguments server.
    unfold route_tool_call, Dict.items. rewrite route_scan_owner.
    destruct (owner_of (tools self) tool_name) as [owner|] eqn:O.
    + destruct (owned _ _ O) as [sess g]. now apply (live _ _ _ _ sess).
    + discriminate.
Qed.

Lemma registry_keys_agree_witness :
  Dict.keys (sessions Demo.served) = Dict.keys (tools Demo.served)
  /\ call_tool Demo.w Demo.served "rag" "add" []
     <> Raise (not_connected "rag").
Proof.
  destruct (registry_keys_agree Demo.served
              (demo_reachable ["browser"; "rag"; "sandbox"; "notes"]))
    as (same & _ & owned & _).
  split; [exact same|].
  apply (owned Demo.w "add" [] "rag"). reflexivity.
Defined.

(** ** Listing *)

Lemma extend_all (lists : list (list Tool)) : forall all_tools,
  fold_left (fun all_tools ts => (all_tools ++ ts)%list) lists all_tools
  = (all_tools ++ concat lists)%list.
Proof.
  induction lists as [|ts lists IH]; intros all_tools; simpl.
  - now rewrite app_nil_r.
  - now rewrite IH, app_assoc.
Qed.

Lemma concat_values_by_key (d : Dict.t (list Tool)) :
  Dict.wf d ->
  concat (Dict.values d)
  = flat_map (fun server => match Dict.get server d with
                            | Some ts => ts
                            | None => []
                            end) (Dict.keys d).
Proof.
  unfold Dict.wf. induction d as [|[k ts] d IH]; simpl; intros nd.
  - reflexivity.
  - inversion nd as [|? ? fresh nd']; subst.
    rewrite String.eqb_refl, (IH nd'). f_equal.
    clear IH nd nd'. revert fresh. generalize (Dict.keys d) as ks.
    induction ks as [|k' ks IHks]; intros fresh; simpl; [reflexivity|].
    destruct (String.eqb_spec k k') as [->|_].
    + elim fresh. now left.
    + f_equal. apply IHks. intros i. apply fresh. now right.
Qed.

(** C7. [get_all_tools] is the concatenation of the descriptor lists of the
    tool map, in the order of the map and, within a server, in the order it
    declared them; nothing is dropped, so a name declared twice is listed
    twice.  A server with an empty list contributes nothing.  In a router a
    program can hold, the order of the map is the order of the session
    map. *)
Theorem get_all_tools_concat (self : MultiMCP) :
  get_all_tools self = concat (Dict.values (tools self))
  /\ length (get_all_tools self)
     = list_sum (map (@length Tool) (Dict.values (tools self)))
  /\ (forall before server after,
        tools self = (before ++ (server, []) :: after)%list ->
        get_all_tools self = concat (Dict.values (before ++ after)%list))
  /\ (reachable self ->
      get_all_tools self
      = flat_map (tools_of self) (Dict.keys (sessions self))).
Proof.
  assert (flat : get_all_tools self = concat (Dict.values (tools self)))
    by (unfold get_all_tools; now rewrite extend_all).
  split; [exact flat|]. split; [|split].
  - rewrite flat. generalize (Dict.values (tools self)) as lists.
    induction lists as [|ts lists IH]; simpl; [reflexivity|].
    now rewrite length_app, IH.
  - intros before server after shape. rewrite flat, shape.
    unfold Dict.values. rewrite !map_app, !concat_app. reflexivity.
  - intros r. destruct (reachable_ok self r) as [same nd].
    rewrite flat, same. now apply concat_values_by_key.
Qed.

Lemma get_all_tools_concat_witness :
  get_all_tools Demo.served = [Demo.echo; Demo.add; Demo.echo2]
  /\ get_all_tools Demo.served
     = flat_map (tools_of Demo.served) ["browser"; "rag"; "notes"].
Proof.
  destruct (get_all_tools_concat Demo.served) as (flat & _ & _ & ordered).
  split.
  - rewrite flat. reflexivity.
  - apply ordered.
    exact (demo_reachable ["browser"; "rag"; "sandbox"; "notes"]).
Defined.

(** ** Configuration *)


(** ** Launch commands *)

Lemma str_list_strings (ss : list string) : str_list (map JStr ss) = Some ss.
Proof. induction ss as [|s ss IH]; simpl; [|rewrite IH]; reflexivity. Qed.




(** * Further properties of the router *)

(** ** Listing by server names *)

Lemma extend_by_name self names : forall all_tools,
  fold_left (fun all_tools name =>
               match Dict.get name (tools self) with
               | Some ts => (all_tools ++ ts)%list
               | None => all_tools
               end) names all_tools
  = (all_tools ++ flat_map (tools_of self) names)%list.
Proof.
  unfold tools_of.
  induction names as [|n names IH]; intros all_tools; simpl.
  - now rewrite app_nil_r.
  - rewrite IH. destruct (Dict.get n (tools self)); simpl.
    + now rewrite app_assoc.
    + reflexivity.
Qed.

(** X1. [get_tools_from_servers] lists, for each requested name in the
    order of the request, the tools the tool map holds for it: a name
    requested twice is listed twice, and a name the map does not hold adds
    nothing and raises nothing. *)
Theorem get_tools_from_servers_flat (self : MultiMCP) (names : list string) :
  get_tools_from_servers self names = flat_map (tools_of self) names
  /\ (forall more,
        get_tools_from_servers self (names ++ more)
        = (get_tools_from_servers self names
           ++ get_tools_from_servers self more)%list)
  /\ (forall unknown,
        Dict.mem unknown (tools self) = false ->
        get_tools_from_servers self (unknown :: names)
        = get_tools_from_servers self names).
Proof.
  assert (flat : forall l,
             get_tools_from_servers self l = flat_map (tools_of self) l)
    by (intros l; unfold get_tools_from_servers; now rewrite extend_by_name).
  split; [apply flat|]. split.
  - intros more. rewrite !flat. apply flat_map_app.
  - intros unknown M. rewrite !flat. simpl. unfold tools_of at 1.
    unfold Dict.mem in M. now destruct (Dict.get unknown (tools self)).
Qed.

Lemma get_tools_from_servers_flat_witness :
  get_tools_from_servers Demo.served ["ghost"; "rag"; "rag"]
  = get_tools_from_servers Demo.served ["rag"; "rag"]
  /\ get_tools_from_servers Demo.served ["rag"; "rag"]
     = [Demo.add; Demo.echo2; Demo.add; Demo.echo2].
Proof.
  split.
  - apply (get_tools_from_servers_flat Demo.served ["rag"; "rag"]).
    reflexivity.
  - rewrite (proj1 (get_tools_from_servers_flat Demo.served ["rag"; "rag"])).
    reflexivity.
Defined.

(** X2. Asked for every server of the session map, in its order,
    [get_tools_from_servers] returns what [get_all_tools] returns. *)
Theorem get_tools_from_all_servers (self : MultiMCP) :
  reachable self ->
  get_tools_from_servers self (Dict.keys (sessions self))
  = get_all_tools self.
Proof.
  intros r. destruct (reachable_ok self r) as [same nd].
  unfold get_tools_from_servers, get_all_tools.
  rewrite extend_by_name, extend_all, same. simpl.
  symmetry. now apply concat_values_by_key.
Qed.

Lemma get_tools_from_all_servers_witness :
  get_tools_from_servers Demo.served (Dict.keys (sessions Demo.served))
  = get_all_tools Demo.served.
Proof.
  apply get_tools_from_all_servers.
  exact (demo_reachable ["browser"; "rag"; "sandbox"; "notes"]).
Defined.

(** ** Listing and routing *)

Lemma declared_somewhere (items : Dict.t (list Tool)) tool_name :
  In tool_name (map name (concat (Dict.values items)))
  <-> exists server ts, In (server, ts) items /\ declares ts tool_name.
Proof.
  unfold declares, Dict.values. rewrite concat_map, map_map. split.
  - intros i. apply in_concat in i as (names & i & here).
    apply in_map_iff in i as ([server ts] & <- & i).
    exists server, ts. auto.
  - intros (server & ts & i & here). apply in_concat.
    exists (map name ts). split; [|exact here].
    apply in_map_iff. exists (server, ts). auto.
Qed.

(** X3. The names [route_tool_call] can route are the names
    [get_all_tools] lists: the not-found error is raised exactly for a name
    that no listed descriptor bears, and [function_wrapper] answers such a
    name with its not-found string. *)
Theorem routable_iff_listed
    (w : world) (self : MultiMCP) (tool_name : string)
    (arguments : Dict.t json) (args : list json) :
  (route_tool_call w self tool_name arguments = Raise (not_found tool_name)
   <-> ~ In tool_name (map name (get_all_tools self)))
  /\ (~ In tool_name (map name (get_all_tools self)) ->
      function_wrapper w self tool_name args
      = Return ("Error: Tool " ++ tool_name ++ " not found")).
Proof.
  assert (listed : ~ In tool_name (map name (get_all_tools self))
                   <-> owner_of (tools self) tool_name = None).
  { unfold get_all_tools. rewrite extend_all. simpl.
    rewrite declared_somewhere, owner_of_none. split.
    - intros none server ts i d. apply none. eauto.
    - intros none (server & ts & i & d). exact (none server ts i d). }
  split.
  - rewrite listed. unfold route_tool_call, Dict.items.
    rewrite route_scan_owner.
    destruct (owner_of (tools self) tool_name) as [owner|].
    + split; [|discriminate]. intros bad.
      now apply call_tool_not_not_found in bad.
    + tauto.
  - intros none. apply listed, find_target_none in none.
    unfold function_wrapper. now rewrite none.
Qed.

Lemma routable_iff_listed_witness :
  function_wrapper Demo.w Demo.served "missing" [JNum 1]
  = Return "Error: Tool missing not found".
Proof.
  apply (routable_iff_listed Demo.w Demo.served "missing" [] [JNum 1]).
  simpl. intuition discriminate.
Defined.

(** ** What [start] does to the registry *)

Lemma start_server_registration w self name config :
  sessions (start_server w self name config)
  = match registration w name config with
    | Some r => Dict.set name (fst r) (sessions self)
    | None => sessions self
    end
  /\ tools (start_server w self name config)
     = match registration w name config with
       | Some r => Dict.set name (snd r) (tools self)
       | None => tools self
       end.
Proof.
  unfold start_server, registration.
  destruct (command_resolution w config) as [[cmd a]|]; [|now split].
  destruct (prepare_parameters cmd a) as [p|]; [|now split].
  unfold connect. cbv zeta.
  destruct (open_transport (spawn w name p)); [|now split].
  destruct (open_session (spawn w name p)); [|now split].
  destruct (wait_for (initialize (spawn w name p)) 20); [|now split].
  destruct (list_tools (spawn w name p)); now split.
Qed.

Lemma connect_opens l name self :
  exists opened,
    exit_stack (connect l name self) = (opened ++ exit_stack self)%list
    /\ length opened <= 2.
Proof.
  unfold connect.
  destruct (open_transport l) as [tr|]; [|exists []; simpl; auto].
  destruct (open_session l) as [sess|];
    [|exists [StdioClient tr]; simpl; auto].
  exists [SessionContext sess; StdioClient tr].
  destruct (wait_for (initialize l) 20); [destruct (list_tools l)|];
    simpl; auto.
Qed.

Lemma start_server_opens w self name config :
  exists opened,
    exit_stack (start_server w self name config)
    = (opened ++ exit_stack self)%list
    /\ length opened <= 2.
Proof.
  unfold start_server.
  destruct (command_resolution w config) as [[cmd a]|];
    [|exists []; simpl; auto].
  destruct (prepare_parameters cmd a) as [p|]; [|exists []; simpl; auto].
  apply connect_opens.
Qed.

(** X4. One iteration of [start] registers the server in both maps or in
    neither: either the session map and the tool map are left as they were,
    or both now hold the new session and the listed tools under the server's
    name.  The entries of every other name are left alone, and no context
    is taken off the exit stack. *)
Theorem start_server_all_or_nothing
    (w : world) (self : MultiMCP) (name : string) (config : json) :
  ((sessions (start_server w self name config) = sessions self
    /\ tools (start_server w self name config) = tools self)
   \/ exists sess ts,
        sessions (start_server w self name config)
        = Dict.set name sess (sessions self)
        /\ tools (start_server w self name config)
           = Dict.set name ts (tools self)
        /\ Dict.get name (sessions (start_server w self name config))
           = Some sess
        /\ tools_of (start_server w self name config) name = ts)
  /\ (forall other,
        other <> name ->
        Dict.get other (sessions (start_server w self name config))
        = Dict.get other (sessions self)
        /\ Dict.get other (tools (start_server w self name config))
           = Dict.get other (tools self))
  /\ ends_with (exit_stack (start_server w self name config))
               (exit_stack self).
Proof.
  destruct (start_server_registration w self name config) as [S T].
  split; [|split].
  - destruct (registration w name config) as [[sess ts]|]; [right|now left].
    exists sess, ts. unfold tools_of. rewrite S, T. simpl.
    now rewrite !get_set_same.
  - intros other ne. rewrite S, T.
    destruct (registration w name config) as [[sess ts]|]; simpl;
      [|now split].
    split; apply get_set_other; congruence.
  - destruct (start_server_opens w self name config) as (opened & E & _).
    now exists opened.
Qed.

Lemma start_server_all_or_nothing_witness :
  Dict.get "browser"
    (sessions (start_server Demo.w Demo.served "sandbox"
                 (uv_run "mcp_servers/server_sandbox.py")))
  = Dict.get "browser" (sessions Demo.served).
Proof.
  apply (start_server_all_or_nothing Demo.w Demo.served "sandbox").
  discriminate.
Defined.

Lemma start_fold_grows w items : forall self,
  let self' := fold_left
                 (fun self item => start_server w self (fst item) (snd item))
                 items self in
  exists added opened,
    Dict.keys (sessions self') = (Dict.keys (sessions self) ++ added)%list
    /\ incl added (Dict.keys items)
    /\ length added <= length items
    /\ exit_stack self' = (opened ++ exit_stack self)%list
    /\ length opened <= 2 * length items.
Proof.
  induction items as [|[name config] items IH]; intros self; simpl.
  - exists [], []. rewrite app_nil_r. repeat split; auto.
    intros k [].
  - destruct (IH (start_server w self name config))
      as (added & opened & K & sub & len & E & lo).
    destruct (start_server_opens w self name config) as (opened1 & E1 & lo1).
    destruct (start_server_registration w self name config) as [S _].
    rewrite E1 in E. rewrite S in K.
    destruct (registration w name config) as [[sess ts]|].
    + simpl in K. rewrite keys_set in K.
      destruct (Dict.mem name (sessions self)).
      * exists added, (opened ++ opened1)%list. repeat split; auto.
        -- now apply incl_tl.
        -- now rewrite <- app_assoc.
        -- rewrite length_app. lia.
      * exists (name :: added), (opened ++ opened1)%list. repeat split.
        -- now rewrite K, <- app_assoc.
        -- intros k [<-|i]; [now left | right; now apply sub].
        -- simpl. lia.
        -- now rewrite <- app_assoc.
        -- rewrite length_app. lia.
    + exists added, (opened ++ opened1)%list. repeat split; auto.
      * now apply incl_tl.
      * now rewrite <- app_assoc.
      * rewrite length_app. lia.
Qed.

(** X5. [start] only ever adds: the servers of the session map before the
    call are still there, in their places, the names added after them are
    configured names, at most one per configured entry, and the contexts
    that were open stay on the exit stack under at most two new ones per
    configured entry. *)
Theorem start_grows_registry
    (w : world) (self self' : MultiMCP) (items : list (string * json)) :
  server_configs self = JObj items ->
  start w self = Return self' ->
  exists added opened,
    Dict.keys (sessions self') = (Dict.keys (sessions self) ++ added)%list
    /\ incl added (Dict.keys items)
    /\ length added <= length items
    /\ exit_stack self' = (opened ++ exit_stack self)%list
    /\ length opened <= 2 * length items.
Proof.
  intros C. unfold start. rewrite C. intros [= <-].
  apply start_fold_grows.
Qed.

Lemma start_grows_registry_witness :
  exists added opened,
    Dict.keys (sessions Demo.served) = ([] ++ added)%list
    /\ incl added ["browser"; "rag"; "sandbox"; "notes"]
    /\ length added <= 4
    /\ exit_stack Demo.served = (opened ++ [])%list
    /\ length opened <= 2 * 4.
Proof.
  apply (start_grows_registry Demo.w
           (Demo.fresh ["browser"; "rag"; "sandbox"; "notes"]) Demo.served
           (map (fun n => (n, uv_run ("mcp_servers/server_" ++ n ++ ".py")))
                ["browser"; "rag"; "sandbox"; "notes"]));
    reflexivity.
Defined.




Lemma wait_for_elapsed {A} (r : response A) (timeout : N) :
  deadline_elapsed timeout r = true ->
  wait_for r timeout = Raise AsyncioTimeoutError.
Proof.
  destruct r as [t res|]; simpl; [intros ->|]; reflexivity.
Qed.

Lemma start_fold_skips w name items : forall self,
  (forall config, In (name, config) items ->
                  registration w name config = None) ->
  let self' := fold_left
                 (fun self item => start_server w self (fst item) (snd item))
                 items self in
  Dict.get name (sessions self') = Dict.get name (sessions self)
  /\ Dict.get name (tools self') = Dict.get name (tools self).
Proof.
  induction items as [|[n config] items IH]; intros self none; simpl.
  - now split.
  - destruct (IH (start_server w self n config)) as [S T].
    { intros c i. apply none. now right. }
    rewrite S, T.
    destruct (start_server_registration w self n config) as [S1 T1].
    rewrite S1, T1.
    destruct (String.eqb_spec n name) as [->|ne].
    + rewrite (none config (or_introl eq_refl)). now split.
    + destruct (registration w n config) as [[sess ts]|]; [|now split].
      simpl. now rewrite !get_set_other.
Qed.

(** X7. A server whose handshake does not complete within the 20 time
    units is not registered by [start]: whatever the other servers do, the
    session map and the tool map hold for its name what they held before the
    call, nothing on a fresh router. *)
Theorem timed_out_server_stays_out
    (w : world) (self self' : MultiMCP) (name : string) :
  (forall server_params,
     deadline_elapsed 20 (initialize (spawn w name server_params)) = true) ->
  start w self = Return self' ->
  Dict.get name (sessions self') = Dict.get name (sessions self)
  /\ Dict.get name (tools self') = Dict.get name (tools self).
Proof.
  intros late. unfold start.
  destruct (server_configs self) as [| | | | |items]; try discriminate.
  intros [= <-]. apply start_fold_skips. intros config _.
  unfold registration.
  destruct (command_resolution w config) as [[cmd a]|]; [|reflexivity].
  destruct (prepare_parameters cmd a) as [p|]; [|reflexivity].
  cbv zeta. rewrite (wait_for_elapsed _ _ (late p)).
  destruct (open_transport (spawn w name p)); [|reflexivity].
  now destruct (open_session (spawn w name p)).
Qed.

Lemma timed_out_server_stays_out_witness :
  Dict.get "sandbox" (sessions Demo.served) = None
  /\ Dict.get "sandbox" (tools Demo.served) = None.
Proof.
  apply (timed_out_server_stays_out Demo.w
           (Demo.fresh ["browser"; "rag"; "sandbox"; "notes"])
           Demo.served "sandbox").
  - intros server_params. reflexivity.
  - reflexivity.
Defined.





(** X10. Wherever [start] begins, a configured server whose launch goes
    through is registered under its name with the session and the tools of
    that launch: on a router that already held the name, the earlier entry
    is replaced. *)
Theorem start_registers_launched
    (w : world) (self self' : MultiMCP) (items : list (string * json))
    (name : string) (config : json) (sess : session) (ts : list Tool) :
  server_configs self = JObj items ->
  Dict.wf items ->
  In (name, config) items ->
  registration w name config = Some (sess, ts) ->
  start w self = Return self' ->
  Dict.get name (sessions self') = Some sess
  /\ Dict.get name (tools self') = Some ts.
Proof.
  intros C nd i reg. unfold start. rewrite C. intros [= <-].
  apply in_split in i as (before & after & ->).
  rewrite fold_left_app. simpl.
  set (mid := fold_left _ before self).
  destruct (start_fold_skips w name after (start_server w mid name config))
    as [S T].
  { intros c i. exfalso. unfold Dict.wf, Dict.keys in nd.
    rewrite map_app in nd. apply NoDup_remove_2 in nd. apply nd.
    apply in_or_app. right. now apply (in_map fst) in i. }
  rewrite S, T.
  destruct (start_server_registration w mid name config) as [S1 T1].
  rewrite S1, T1, reg. simpl. now rewrite !get_set_same.
Qed.

Lemma start_registers_launched_witness :
  Dict.get "rag" (sessions Demo.served) = Some 3
  /\ Dict.get "rag" (tools Demo.served) = Some [Demo.add; Demo.echo2].
Proof.
  apply (start_registers_launched Demo.w
           (Demo.fresh ["browser"; "rag"; "sandbox"; "notes"]) Demo.served
           (map (fun n => (n, uv_run ("mcp_servers/server_" ++ n ++ ".py")))
                ["browser"; "rag"; "sandbox"; "notes"])
           "rag" (uv_run "mcp_servers/server_rag.py")); try reflexivity.
  - unfold Dict.wf. simpl. repeat constructor; simpl; intuition discriminate.
  - simpl. auto.
Defined.

(** X11. However often [start] and [stop] are called, neither map lists a
    server name twice. *)
Theorem registry_names_unique (self : MultiMCP) :
  reachable self ->
  NoDup (Dict.keys (sessions self)) /\ NoDup (Dict.keys (tools self)).
Proof.
  intros r. destruct (reachable_ok self r) as [same nd].
  split; [rewrite same|]; exact nd.
Qed.

Lemma registry_names_unique_witness :
  NoDup (Dict.keys (sessions Demo.served))
  /\ NoDup (Dict.keys (tools Demo.served)).
Proof.
  apply registry_names_unique.
  exact (demo_reachable ["browser"; "rag"; "sandbox"; "notes"]).
Defined.

(** ** Teardown errors *)

Lemma run_exit_callbacks_app w front back : forall pending,
  run_exit_callbacks w (front ++ back) pending
  = run_exit_callbacks w back (run_exit_callbacks w front pending).
Proof.
  induction front as [|cb front IH]; intros pending; simpl; [reflexivity|].
  destruct (aexit w cb pending); apply IH.
Qed.

Lemma run_exit_callbacks_raised w callbacks : forall pending e,
  run_exit_callbacks w callbacks pending = Some e ->
  pending = Some e
  \/ exists cb p, In cb callbacks /\ aexit w cb p = ExitRaise e.
Proof.
  induction callbacks as [|cb callbacks IH]; intros pending e; simpl.
  - auto.
  - destruct (aexit w cb pending) as [| |e'] eqn:A; intros R;
      apply IH in R as [R|(cb' & p & i & R)]; eauto 6; try discriminate.
    injection R as <-. eauto 6.
Qed.

(** X12. [stop] does not swallow teardown errors.  It raises only what an
    exit callback of a context on the stack raised, so with nothing open, or
    with callbacks that do not raise, it raises nothing; and when the
    context entered first, the one closed last, fails to close, [stop]
    raises that failure.  In every case the exit stack is empty afterwards. *)
Theorem stop_raises_teardown_errors (w : world) (self : MultiMCP) :
  (forall e,
     snd (stop w self) = Some e ->
     exists cb pending,
       In cb (exit_stack self) /\ aexit w cb pending = ExitRaise e)
  /\ (forall later first e,
        exit_stack self = (later ++ [first])%list ->
        (forall pending, aexit w first pending = ExitRaise e) ->
        snd (stop w self) = Some e
        /\ exit_stack (fst (stop w self)) = []).
Proof.
  unfold stop. simpl. split.
  - intros e R.
    apply run_exit_callbacks_raised in R as [R|R]; [discriminate | exact R].
  - intros later first e -> fails. split; [|reflexivity].
    rewrite run_exit_callbacks_app. simpl. now rewrite fails.
Qed.

Lemma stop_raises_teardown_errors_witness :
  snd (stop Hosts.failing_teardown Demo.served) = Some Hosts.broken_pipe
  /\ exit_stack (fst (stop Hosts.failing_teardown Demo.served)) = [].
Proof.
  apply (proj2 (stop_raises_teardown_errors Hosts.failing_teardown Demo.served)
           [SessionContext 7; StdioClient 6; SessionContext 5; StdioClient 4;
            SessionContext 3; StdioClient 2; SessionContext 1]
           (StdioClient 0)).
  - reflexivity.
  - intros pending. reflexivity.
Defined.

(** ** Errors of the remote call *)

(** X13. When the session's call fails before the deadline, [call_tool]
    lets the library's exception through unchanged, unless that exception is
    itself a timeout error: this one is reported as the 20-second timeout of
    the tool and the server, however early it came. *)
Theorem call_tool_library_errors
    (w : world) (self : MultiMCP) (server_name tool_name : string)
    (arguments : Dict.t json) (sess : session) (t : N) (e : lib_exn) :
  Dict.get server_name (sessions self) = Some sess ->
  remote_call w sess tool_name arguments = Replies t (inr e) ->
  (t < 20)%N ->
  call_tool w self server_name tool_name arguments
  = if lib_is_timeout e then Raise (timed_out tool_name server_name)
    else Raise (LibraryError e).
Proof.
  intros g reply early. unfold call_tool. rewrite g, reply. simpl.
  destruct (N.leb_spec 20 t); [lia | reflexivity].
Qed.

Lemma call_tool_library_errors_witness :
  call_tool Demo.w Demo.served "browser" "echo" []
  = Raise (LibraryError Demo.refused).
Proof.
  apply (call_tool_library_errors Demo.w Demo.served "browser" "echo" []
           1 1%N Demo.refused); [reflexivity | reflexivity | lia].
Defined.

(** ** Results of the positional wrapper *)

(** X14. When the routed call returns a result, [function_wrapper] returns
    the text of its first content element; a result without content comes
    back as its [str()]; and a result whose first element has no text, an
    image say, comes back as an error string although the call succeeded. *)
Theorem function_wrapper_unwraps
    (w : world) (self : MultiMCP) (tool_name : string) (args : list json)
    (target_tool : Tool) (arguments : Dict.t json) (result : CallToolResult) :
  find_target tool_name (Dict.values (tools self)) = Some target_tool ->
  map_arguments (inputSchema target_tool) args = Return arguments ->
  route_tool_call w self tool_name arguments = Return result ->
  function_wrapper w self tool_name args
  = match content result with
    | [] => Return (str_result w result)
    | TextContent text :: _ => Return text
    | OtherContent cls :: _ =>
        Return ("Error executing " ++ tool_name ++ ": '" ++ cls
                ++ "' object has no attribute 'text'")
    end.
Proof.
  intros found mapped routed. unfold function_wrapper.
  rewrite found, mapped. simpl bind. rewrite routed. simpl bind.
  unfold first_text.
  destruct (content result) as [|[text|cls] rest]; reflexivity.
Qed.

Lemma function_wrapper_unwraps_witness :
  function_wrapper Demo.w Demo.served "echo" [JStr "hi"; JNum 3]
  = Return "hi".
Proof.
  apply (function_wrapper_unwraps Demo.w Demo.served "echo"
           [JStr "hi"; JNum 3] Demo.echo [("text", JStr "hi")]
           (Demo.text_result "hi")); reflexivity.
Defined.

(** ** Launch commands on a host that has [uv] *)

(** X15. On a host where [uv] is found, every server is launched as it is
    configured: the declared command, ["uv"] when none is declared, and the
    declared arguments, none when none are declared, a leading ["run"]
    included. *)
Theorem uv_available_keeps_command
    (w : world) (self : MultiMCP) (name : string) (fields : Dict.t json)
    (ss : list string) :
  which w "uv" = true ->
  Dict.get "args" fields = Some (JArr (map JStr ss)) ->
  command_resolution w (JObj fields)
  = Return (match Dict.get "command" fields with
            | Some cmd => cmd
            | None => JStr "uv"
            end, JArr (map JStr ss))
  /\ (Dict.get "command" fields = None ->
      start_server w self name (JObj fields)
      = connect (spawn w name (mk_params "uv" ss)) name self).
Proof.
  intros uv a.
  assert (resolved : command_resolution w (JObj fields)
                     = Return (match Dict.get "command" fields with
                               | Some cmd => cmd
                               | None => JStr "uv"
                               end, JArr (map JStr ss))).
  { unfold command_resolution, py_get. simpl bind. rewrite a, uv.
    now rewrite andb_false_r. }
  split; [exact resolved|].
  intros none. unfold start_server. rewrite resolved, none. simpl.
  now rewrite str_list_strings.
Qed.

Lemma uv_available_keeps_command_witness :
  command_resolution Hosts.with_uv (uv_run "mcp_servers/server_rag.py")
  = Return (JStr "uv", JArr [JStr "run"; JStr "mcp_servers/server_rag.py"]).
Proof.
  apply (uv_available_keeps_command Hosts.with_uv (Demo.fresh []) "rag"
           [("command", JStr "uv");
            ("args", JArr [JStr "run"; JStr "mcp_servers/server_rag.py"])]
           ["run"; "mcp_servers/server_rag.py"]); reflexivity.
Defined.

(** ** The positional wrapper, end to end *)

Section EndToEnd.

Context (w : world) (self : MultiMCP) (tool_name : string).
Context (before after : Dict.t (list Tool)) (owner : string).
Context (ts : list Tool) (target_tool : Tool) (properties : Dict.t json).
Context (sess : session).

Hypothesis shape : tools self = (before ++ (owner, ts) :: after)%list.
Hypothesis first :
  forall n ts', In (n, ts') before -> ~ declares ts' tool_name.
Hypothesis found : find_tool tool_name ts = Some target_tool.
Hypothesis schema :
  Dict.get "properties" (inputSchema target_tool) = Some (JObj properties).
Hypothesis distinct : Dict.wf properties.
Hypothesis connected : Dict.get owner (sessions self) = Some sess.

Lemma wrapper_routes (args : list json) :
  function_wrapper w self tool_name args
  = match
      (result <- call_tool w self owner tool_name
                   (combine (Dict.keys properties) args) ;;
       match content result with
       | _ :: _ => first_text result
       | [] => Return (str_result w result)
       end)
    with
    | Return text => Return text
    | Raise e => Return ("Error executing " ++ tool_name ++ ": " ++ str_exn e)
    end.
Proof.
  assert (d : declares ts tool_name).
  { apply find_tool_name in found as [e i]. unfold declares.
    rewrite <- e. now apply in_map. }
  unfold function_wrapper.
  rewrite shape, find_target_first, found by assumption.
  rewrite (map_arguments_properties _ _ _ schema),
    zip_loop_combine by assumption.
  simpl bind at 1. unfold route_tool_call, Dict.items.
  now rewrite route_scan_owner, shape, owner_of_first.
Qed.

End EndToEnd.

(** X16. End to end: when the first server declaring the tool is connected,
    its descriptor names its parameters in a mapping, and its session answers
    the call, made with the values zipped to those names, before the
    deadline with a result that starts with a text, [function_wrapper]
    returns that text. *)
Theorem function_wrapper_end_to_end
    (w : world) (self : MultiMCP) (tool_name : string) (args : list json)
    (before after : Dict.t (list Tool)) (owner : string) (ts : list Tool)
    (target_tool : Tool) (properties : Dict.t json) (sess : session)
    (t : N) (result : CallToolResult) (text : string)
    (rest : list content_block) :
  tools self = (before ++ (owner, ts) :: after)%list ->
  (forall n ts', In (n, ts') before -> ~ declares ts' tool_name) ->
  find_tool tool_name ts = Some target_tool ->
  Dict.get "properties" (inputSchema target_tool) = Some (JObj properties) ->
  Dict.wf properties ->
  Dict.get owner (sessions self) = Some sess ->
  remote_call w sess tool_name (combine (Dict.keys properties) args)
  = Replies t (inl result) ->
  (t < 20)%N ->
  content result = TextContent text :: rest ->
  function_wrapper w self tool_name args = Return text.
Proof.
  intros shape first found schema distinct connected reply early c.
  rewrite (wrapper_routes w self tool_name before after owner ts target_tool
             properties shape first found schema distinct).
  unfold call_tool. rewrite connected, reply. simpl.
  destruct (N.leb_spec 20 t); [lia|]. simpl.
  unfold first_text. now rewrite c.
Qed.

Lemma function_wrapper_end_to_end_witness :
  function_wrapper Demo.w Demo.served "add" [JNum 2; JNum 3] = Return "5".
Proof.
  apply (function_wrapper_end_to_end Demo.w Demo.served "add"
           [JNum 2; JNum 3]
           [("browser", [Demo.echo])] [("notes", [])] "rag"
           [Demo.add; Demo.echo2] Demo.add
           [("x", Demo.number_param); ("y", Demo.number_param)] 3 3%N
           (Demo.text_result "5") "5" []); try reflexivity.
  - intros n ts' [[= <- <-]|[]]. unfold declares. simpl.
    intuition discriminate.
  - unfold Dict.wf. simpl. repeat constructor; simpl; intuition discriminate.
Defined.

(** X17. Under the same conditions, when the session does not answer
    within the 20 time units, [function_wrapper] raises nothing and returns
    the error string that carries the timeout message of [call_tool], with
    the names of the tool and of the server. *)
Theorem function_wrapper_reports_timeout
    (w : world) (self : MultiMCP) (tool_name : string) (args : list json)
    (before after : Dict.t (list Tool)) (owner : string) (ts : list Tool)
    (target_tool : Tool) (properties : Dict.t json) (sess : session) :
  tools self = (before ++ (owner, ts) :: after)%list ->
  (forall n ts', In (n, ts') before -> ~ declares ts' tool_name) ->
  find_tool tool_name ts = Some target_tool ->
  Dict.get "properties" (inputSchema target_tool) = Some (JObj properties) ->
  Dict.wf properties ->
  Dict.get owner (sessions self) = Some sess ->
  deadline_elapsed 20
    (remote_call w sess tool_name (combine (Dict.keys properties) args))
  = true ->
  function_wrapper w self tool_name args
  = Return ("Error executing " ++ tool_name ++ ": Tool '" ++ tool_name
            ++ "' on server '" ++ owner
            ++ "' timed out after 20 seconds.").
Proof.
  intros shape first found schema distinct connected late.
  rewrite (wrapper_routes w self tool_name before after owner ts target_tool
             properties shape first found schema distinct).
  unfold call_tool. rewrite connected, (wait_for_elapsed _ _ late).
  reflexivity.
Qed.

Lemma function_wrapper_reports_timeout_witness :
  function_wrapper Demo.w (Demo.started ["rag"]) "echo" [JStr "hi"]
  = Return ("Error executing echo: Tool 'echo' on server 'rag' "
            ++ "timed out after 20 seconds.").
Proof.
  apply (function_wrapper_reports_timeout Demo.w (Demo.started ["rag"])
           "echo" [JStr "hi"] [] [] "rag" [Demo.add; Demo.echo2] Demo.echo2
           [("message", Demo.string_param)] 3); try reflexivity.
  - intros n ts' [].
  - unfold Dict.wf. simpl. repeat constructor; simpl; intuition discriminate.
Defined.
